(** * ebacktrace: a shallow embedding of [src/backtrace.rs] and [src/lib.rs]

    The lazily resolved backtrace ([Backtrace], a [RefCell<InnerMut>]) and
    the error wrapper generated by [define_error!] are modelled in a small
    state monad over the formatter buffer and the heap of [Arc] allocations.
    A Rust panic is the [Panicked] outcome; it carries the state after
    unwinding, in which every [Ref]/[RefMut] guard held at the panic has been
    dropped. *)

From Stdlib Require Import String Ascii List ZArith Bool.
From stdpp Require Import base gmap strings.

Local Open Scope string_scope.

(** ** Frames and the [backtrace] crate's unresolved backtrace *)

(** A frame: its instruction pointer and, once resolved, its symbols. *)
Record Frame := mkFrame { ip : Z; symbols : option (list string) }.

(** [backtrace::Backtrace] *)
Definition RawBacktrace := list Frame.

(** The symbolizer in effect when [resolve] runs (the debug information of
    the process): the symbols of an address, or [None] when it panics. *)
Definition Symbolizer := Z -> option (list string).

(** [backtrace::Backtrace::new_unresolved]: records the instruction pointers
    of the current stack, no symbol is looked up. *)
Definition new_unresolved (stack : list Z) : RawBacktrace :=
  map (fun a => mkFrame a None) stack.

(** [backtrace::Backtrace::resolve]: resolves, in place, every frame whose
    symbols are still [None]. The boolean is [true] when the symbolizer
    panicked; the frames resolved before the panic keep their symbols. *)
Fixpoint resolve (sym : Symbolizer) (fs : RawBacktrace) : RawBacktrace * bool :=
  match fs with
  | [] => ([], false)
  | fr :: rest =>
      match symbols fr with
      | Some _ => let '(rest', p) := resolve sym rest in (fr :: rest', p)
      | None =>
          match sym (ip fr) with
          | None => (fs, true)
          | Some ss => let '(rest', p) := resolve sym rest in
                       (mkFrame (ip fr) (Some ss) :: rest', p)
          end
      end
  end.

(** ** [InnerMut], [RefCell] and [Backtrace] *)

Record InnerMut := mkInnerMut {
  backtrace : RawBacktrace;   (** the wrapped backtrace *)
  string : option string      (** the backtrace as string *)
}.

(** The borrow state of a [RefCell]: no guard, [n] shared [Ref]s, or one
    [RefMut]. *)
Inductive BorrowFlag := Unused | Reading (n : nat) | Writing.

Record RefCell (T : Type) := mkRefCell { borrow_flag : BorrowFlag; cell_value : T }.
Arguments mkRefCell {T} _ _.
Arguments borrow_flag {T} _.
Arguments cell_value {T} _.

(** [pub struct Backtrace { inner: RefCell<InnerMut> }] *)
Record Backtrace := mkBacktrace { inner : RefCell InnerMut }.

(** ** The formatter/heap monad *)

(** The [Formatter]'s output buffer and the heap of [Arc<Backtrace>]. *)
Record St := mkSt { buf : String.string; heap : gmap positive Backtrace }.

Inductive Res (A : Type) :=
  | Done (a : A) (s : St)
  | Panicked (msg : String.string) (s : St).
Arguments Done {A} _ _.
Arguments Panicked {A} _ _.

Definition M (A : Type) := St -> Res A.

#[export] Instance M_ret : MRet M := fun A a s => Done a s.
#[export] Instance M_bind : MBind M := fun A B f m s =>
  match m s with
  | Done a s' => f a s'
  | Panicked msg s' => Panicked msg s'
  end.

Definition panic {A} (msg : String.string) : M A := fun s => Panicked msg s.

(** [write!(f, "{}", t)] *)
Definition write (t : String.string) : M unit :=
  fun s => Done tt (mkSt (buf s ++ t) (heap s)).

Definition nl : String.string := String (ascii_of_nat 10) EmptyString.

(** [writeln!(f, "{}", t)] *)
Definition writeln (t : String.string) : M unit := write (t ++ nl).

Definition set_cell (l : positive) (c : RefCell InnerMut) (s : St) : St :=
  mkSt (buf s) (<[l := mkBacktrace c]> (heap s)).

Definition cell_at (l : positive) (s : St) : option (RefCell InnerMut) :=
  inner <$> heap s !! l.

Definition dangling {A} : M A := panic "dangling Arc".

(** [RefCell::borrow] *)
Definition borrow (l : positive) : M InnerMut := fun s =>
  match cell_at l s with
  | None => Panicked "dangling Arc" s
  | Some c =>
      match borrow_flag c with
      | Writing => Panicked "already mutably borrowed" s
      | Unused => Done (cell_value c) (set_cell l (mkRefCell (Reading 1) (cell_value c)) s)
      | Reading n => Done (cell_value c) (set_cell l (mkRefCell (Reading (S n)) (cell_value c)) s)
      end
  end.

(** Dropping a [Ref]. *)
Definition release_flag (f : BorrowFlag) : BorrowFlag :=
  match f with
  | Reading (S (S n)) => Reading (S n)
  | _ => Unused
  end.

Definition drop_ref_st (l : positive) (s : St) : St :=
  match cell_at l s with
  | None => s
  | Some c => set_cell l (mkRefCell (release_flag (borrow_flag c)) (cell_value c)) s
  end.

(** A scope holding a [Ref] on the cell at [l]: the guard is dropped at the
    end of the scope and when a panic unwinds through it. *)
Definition with_borrow {A} (l : positive) (k : InnerMut -> M A) : M A := fun s =>
  match borrow l s with
  | Panicked msg s' => Panicked msg s'
  | Done v s' =>
      match k v s' with
      | Done a s'' => Done a (drop_ref_st l s'')
      | Panicked msg s'' => Panicked msg (drop_ref_st l s'')
      end
  end.

(** [RefCell::borrow_mut] *)
Definition borrow_mut (l : positive) : M InnerMut := fun s =>
  match cell_at l s with
  | None => Panicked "dangling Arc" s
  | Some c =>
      match borrow_flag c with
      | Unused => Done (cell_value c) (set_cell l (mkRefCell Writing (cell_value c)) s)
      | _ => Panicked "already borrowed" s
      end
  end.

(** Dropping the [RefMut] with the value it was updated to. *)
Definition drop_mut (l : positive) (v : InnerMut) : M unit := fun s =>
  Done tt (set_cell l (mkRefCell Unused v) s).

(** A panic while the [RefMut] is held: unwinding drops the guard, the value
    keeps the updates made so far. *)
Definition unwind_mut {A} (l : positive) (v : InnerMut) (msg : String.string) : M A := fun s =>
  Panicked msg (set_cell l (mkRefCell Unused v) s).

(** [Option::expect] *)
Definition expect {A} (o : option A) (msg : String.string) : M A :=
  match o with Some a => mret a | None => panic msg end.

Definition expect_msg : String.string := "Failed to access captured backtrace?!".
Definition resolve_panic_msg : String.string := "symbolizer panicked".

(** ** [impl Display for Backtrace] and [impl Debug for Backtrace] *)

Section BacktraceFmt.

(** [format!("{:?}", backtrace)]: the [backtrace] crate's rendering. *)
Variable fmt_backtrace : RawBacktrace -> String.string.
(** The [Debug] form of a [String] (quoted and escaped). *)
Variable debug_str : String.string -> String.string.

(** [let has_backtrace = { let backtrace_ref = self.inner.borrow();
    backtrace_ref.string.is_some() };] *)
Definition bt_has_backtrace (l : positive) : M bool :=
  with_borrow l (fun r => mret (bool_decide (is_Some (string r)))).

(** [let mut inner_mut = self.inner.borrow_mut();
     inner_mut.backtrace.resolve();
     inner_mut.string = Some(format!("{:?}", inner_mut.backtrace));] *)
Definition bt_resolve (sym : Symbolizer) (l : positive) : M unit :=
  im ← borrow_mut l;
  let '(bt', panicked) := resolve sym (backtrace im) in
  if panicked then unwind_mut l (mkInnerMut bt' (string im)) resolve_panic_msg
  else drop_mut l (mkInnerMut bt' (Some (fmt_backtrace bt'))).

(** [let backtrace_ref = self.inner.borrow();
     let bactrace_string = backtrace_ref.string.as_ref().expect(..);
     write!(f, "{}", bactrace_string)] *)
Definition bt_write (l : positive) : M unit :=
  with_borrow l (fun r => s ← expect (string r) expect_msg; write s).

Definition backtrace_display (sym : Symbolizer) (l : positive) : M unit :=
  has_backtrace ← bt_has_backtrace l;
  (if negb has_backtrace then bt_resolve sym l else mret tt);;
  bt_write l.

Definition debug_option (o : option String.string) : String.string :=
  match o with None => "None" | Some s => "Some(" ++ debug_str s ++ ")" end.

(** [#[derive(Debug)] struct InnerMut] *)
Definition debug_inner_mut (im : InnerMut) : String.string :=
  "InnerMut { backtrace: " ++ fmt_backtrace (backtrace im)
  ++ ", string: " ++ debug_option (string im) ++ " }".

(** [impl Debug for RefCell<T>]: uses [try_borrow]. *)
Definition refcell_debug (l : positive) : M unit := fun s =>
  match cell_at l s with
  | None => Panicked "dangling Arc" s
  | Some c =>
      match borrow_flag c with
      | Writing => write "RefCell { value: <borrowed> }" s
      | _ => with_borrow l (fun v => write ("RefCell { value: " ++ debug_inner_mut v ++ " }")) s
      end
  end.

Definition backtrace_debug (sym : Symbolizer) (l : positive) : M unit :=
  has_backtrace ← bt_has_backtrace l;
  (if negb has_backtrace then bt_resolve sym l else mret tt);;
  write "Backtrace { inner: ";;
  refcell_debug l;;
  write " }".

End BacktraceFmt.

(** ** [Backtrace::capture] *)

(** The cargo features of the crate. *)
Record Features := mkFeatures {
  force_backtrace : bool;   (** [feature = "force_backtrace"] *)
  derive_display : bool     (** [feature = "derive_display"] *)
}.

(** The process environment read at capture time: the value of
    [RUST_BACKTRACE] ([None] when unset or not unicode, i.e. when
    [std::env::var] returns [Err]) and the instruction pointers of the
    current call stack. *)
Record Env := mkEnv { rust_backtrace : option String.string; stack : list Z }.

(** [matches!(rust_backtrace.as_str(), "1" | "true" | "full")] *)
Definition enabling (v : String.string) : bool :=
  String.eqb v "1" || String.eqb v "true" || String.eqb v "full".

(** [std::env::var("RUST_BACKTRACE").unwrap_or_default()] *)
Definition rust_backtrace_var (env : Env) : String.string :=
  match rust_backtrace env with Some v => v | None => "" end.

Definition fresh_backtrace (env : Env) : Backtrace :=
  mkBacktrace (mkRefCell Unused (mkInnerMut (new_unresolved (stack env)) None)).

(** [Backtrace::capture], both [cfg] variants. *)
Definition capture (feats : Features) (env : Env) : option Backtrace :=
  if force_backtrace feats then Some (fresh_backtrace env)
  else
    let capture_backtrace := enabling (rust_backtrace_var env) in
    if capture_backtrace then Some (fresh_backtrace env) else None.

(** ** The error type of [define_error!] *)

(** [pub struct $name<E> { err: E, desc: Cow<'static, str>,
    backtrace: Option<Arc<Backtrace>> }]; the [Arc] is a heap address. *)
Record Error (E : Type) := mkError {
  err : E;
  desc : String.string;
  error_backtrace : option positive
}.
Arguments mkError {E} _ _ _.
Arguments err {E} _.
Arguments desc {E} _.
Arguments error_backtrace {E} _.

(** [Arc::new]: a fresh heap cell. *)
Definition arc_new (b : Backtrace) : M positive := fun s =>
  let l := fresh (dom (heap s)) in
  Done l (mkSt (buf s) (<[l := b]> (heap s))).

(** [Option::map(Arc::new)] *)
Definition map_arc_new (o : option Backtrace) : M (option positive) :=
  match o with
  | Some b => l ← arc_new b; mret (Some l)
  | None => mret None
  end.

Section ErrorType.

Context {E : Type}.
Variable feats : Features.

(** [pub fn new(err: E) -> Self] *)
Definition new (env : Env) (e : E) : M (Error E) :=
  backtrace ← map_arc_new (capture feats env);
  mret (mkError e "" backtrace).

(** [impl From<E> for $name<E>] *)
Definition from (env : Env) (error : E) : M (Error E) := new env error.

(** [impl Default for $name<E>] *)
Definition default (env : Env) (default_E : E) : M (Error E) := new env default_E.

(** [impl Clone for $name<E>]: [clone_E] is [E::clone]; cloning the [Arc]
    copies the address. *)
Definition clone (clone_E : E -> E) (x : Error E) : Error E :=
  mkError (clone_E (err x)) (desc x) (error_backtrace x).

(** The payload's [Display] and [Debug] renderings. *)
Variable display_E debug_E : E -> String.string.
Variable fmt_backtrace : RawBacktrace -> String.string.

(** [impl Display for $name<E>], both [cfg] variants: the payload is written
    with [{:?}] under [derive_display] and with [{}] otherwise. *)
Definition error_display (sym : Symbolizer) (x : Error E) : M unit :=
  write (if derive_display feats then debug_E (err x) else display_E (err x));;
  (if negb (String.eqb (desc x) "") then write (" (" ++ desc x ++ ")") else mret tt);;
  match error_backtrace x with
  | Some l =>
      writeln "";;
      writeln "";;
      writeln "Backtrace:";;
      backtrace_display fmt_backtrace sym l
  | None => mret tt
  end.

(** [x.to_string()]: [Display] into an empty buffer; the result is the text
    and the heap afterwards, or the panic. *)
Definition to_text (sym : Symbolizer) (x : Error E) (h : gmap positive Backtrace)
  : Res unit :=
  error_display sym x (mkSt "" h).

End ErrorType.

(** ** Thread-safety auto traits of the types involved *)

#[warnings="-register-all"]
Inductive RustTy :=
  | TString                   (** [String], [Cow<'static, str>] *)
  | TRawBacktrace             (** [backtrace::Backtrace]: [Send + Sync] *)
  | TParam (send sync : bool) (** the payload type [E] *)
  | TOption (t : RustTy)
  | TRefCell (t : RustTy)
  | TArc (t : RustTy)
  | TStruct (fields : list RustTy).

Fixpoint is_send (t : RustTy) : bool :=
  match t with
  | TString | TRawBacktrace => true
  | TParam s _ => s
  | TOption t | TRefCell t => is_send t
  | TArc t => is_send t && is_sync t
  | TStruct fs => forallb is_send fs
  end
with is_sync (t : RustTy) : bool :=
  match t with
  | TString | TRawBacktrace => true
  | TParam _ s => s
  | TOption t => is_sync t
  | TRefCell _ => false
  | TArc t => is_send t && is_sync t
  | TStruct fs => forallb is_sync fs
  end.

Definition inner_mut_ty : RustTy := TStruct [TRawBacktrace; TOption TString].
Definition backtrace_ty : RustTy := TStruct [TRefCell inner_mut_ty].
Definition error_ty (payload : RustTy) : RustTy :=
  TStruct [payload; TString; TOption (TArc backtrace_ty)].

(** ** Calls on one shared backtrace *)

(** A call that renders the backtrace at one address. *)
Inductive Call :=
  | CallDisplay (sym : Symbolizer)   (** [format!("{}", backtrace)] *)
  | CallDebug (sym : Symbolizer).    (** [format!("{:?}", backtrace)] *)

Section Calls.

Variable fmt_backtrace : RawBacktrace -> String.string.
Variable debug_str : String.string -> String.string.

Definition call_fmt (c : Call) (l : positive) : M unit :=
  match c with
  | CallDisplay sym => backtrace_display fmt_backtrace sym l
  | CallDebug sym => backtrace_debug fmt_backtrace debug_str sym l
  end.

(** One call formats into a fresh buffer: its text, or [None] when it
    panicked (the program going on after the panic, e.g. past a
    [catch_unwind]), and the heap afterwards. *)
Definition run_call (c : Call) (l : positive) (h : gmap positive Backtrace)
  : option String.string * gmap positive Backtrace :=
  match call_fmt c l (mkSt "" h) with
  | Done _ s => (Some (buf s), heap s)
  | Panicked _ s => (None, heap s)
  end.

(** The cached rendering of the backtrace at [l]. *)
Definition cached_str (l : positive) (h : gmap positive Backtrace) : option String.string :=
  b ← h !! l; string (cell_value (inner b)).

(** A sequence of calls: for each, the call, its text and the cached
    rendering after it. *)
Fixpoint run_calls (cs : list Call) (l : positive) (h : gmap positive Backtrace)
  : list (Call * option String.string * option String.string) * gmap positive Backtrace :=
  match cs with
  | [] => ([], h)
  | c :: rest =>
      let '(out, h1) := run_call c l h in
      let '(steps, h2) := run_calls rest l h1 in
      ((c, out, cached_str l h1) :: steps, h2)
  end.

(** The number of calls that filled the cache, i.e. completed a resolution. *)
Fixpoint resolutions (before : option String.string)
    (steps : list (Call * option String.string * option String.string)) : nat :=
  match steps with
  | [] => 0
  | (_, _, after) :: rest =>
      (match before, after with None, Some _ => 1 | _, _ => 0 end)
      + resolutions after rest
  end.

(** The cell at [l] of the heap [h], with no guard held. *)
Definition idle (h : gmap positive Backtrace) (l : positive) (v : InnerMut) : Prop :=
  h !! l = Some (mkBacktrace (mkRefCell Unused v)).

(** The effect of one render on the cell value: the resolution branch runs
    only when no string is cached; the boolean is [true] when it panicked. *)
Definition render_update (sym : Symbolizer) (v : InnerMut) : InnerMut * bool :=
  match string v with
  | Some _ => (v, false)
  | None =>
      let '(bt', panicked) := resolve sym (backtrace v) in
      if panicked then (mkInnerMut bt' None, true)
      else (mkInnerMut bt' (Some (fmt_backtrace bt')), false)
  end.

Definition call_sym (c : Call) : Symbolizer :=
  match c with CallDisplay sym | CallDebug sym => sym end.

(** The text a call that did not panic writes, given the cell value after
    it. *)
Definition call_text (c : Call) (v : InnerMut) : String.string :=
  match c with
  | CallDisplay _ => match string v with Some t => t | None => "" end
  | CallDebug _ =>
      "Backtrace { inner: " ++ "RefCell { value: " ++ debug_inner_mut fmt_backtrace debug_str v
      ++ " }" ++ " }"
  end.

End Calls.

(** ** The parts of the error's rendering *)

Definition payload_text {E} (feats : Features) (display_E debug_E : E -> String.string) (e : E)
  : String.string :=
  if derive_display feats then debug_E e else display_E e.

(** [if !self.desc.is_empty() { write!(f, " ({})", &self.desc)?; }] *)
Definition desc_suffix (d : String.string) : String.string :=
  if String.eqb d "" then "" else " (" ++ d ++ ")".

(** [writeln!(f)?; writeln!(f)?; writeln!(f, "Backtrace:")?;] *)
Definition backtrace_header : String.string := nl ++ nl ++ "Backtrace:" ++ nl.

(** [s] contains [needle]. *)
Definition substring (needle s : String.string) : Prop :=
  exists pre post, s = pre ++ needle ++ post.

(** ** The [Debug] of the error *)

(** [impl Debug for $name<E>]: [f.debug_struct(type_name::<Self>())
    .field("err", &self.err).field("desc", &self.desc)
    .field("backtrace", &self.backtrace).finish()]; [type_name] is
    [type_name::<Self>()], [debug_E] the payload's [Debug], [debug_str] the
    [Debug] of a string ([Cow<str>] delegates to [str]); [Option] and [Arc]
    print as [Some(..)]/[None] and as their contents. *)
Definition error_debug {E} (type_name : String.string) (debug_E : E -> String.string)
    (fmt_backtrace : RawBacktrace -> String.string) (debug_str : String.string -> String.string)
    (sym : Symbolizer) (x : Error E) : M unit :=
  write (type_name ++ " { ");;
  write ("err: " ++ debug_E (err x));;
  write (", desc: " ++ debug_str (desc x));;
  write ", backtrace: ";;
  (match error_backtrace x with
   | None => write "None"
   | Some l => write "Some(";; backtrace_debug fmt_backtrace debug_str sym l;; write ")"
   end);;
  write " }".

(** The cached string, when present, is the rendering of the stored frames. *)
Definition coherent (fmt_backtrace : RawBacktrace -> String.string) (v : InnerMut) : Prop :=
  forall t, string v = Some t -> t = fmt_backtrace (backtrace v).

(** What [Debug for Backtrace] prints for a cell whose frames render as
    [rendered] and whose cache holds that same string. *)
Definition backtrace_debug_text (debug_str : String.string -> String.string)
    (rendered : String.string) : String.string :=
  "Backtrace { inner: RefCell { value: InnerMut { backtrace: " ++ rendered
  ++ ", string: Some(" ++ debug_str rendered ++ ") } } }".

(** A concrete backtrace for the examples: two frames, and a symbolizer
    and a rendering of the frames' symbols. *)
Definition demo_heap : gmap positive Backtrace :=
  {[ 1%positive := fresh_backtrace (mkEnv (Some "1") [4096%Z; 8192%Z]) ]}.

Definition demo_sym : Symbolizer := fun a => Some [if Z.eqb a 4096 then "main" else "start"].

Definition demo_fmt (fs : RawBacktrace) : String.string :=
  String.concat ", " (flat_map (fun fr => match symbols fr with Some ss => ss | None => [] end) fs).

(** * Proofs *)

(** ** Heap and cell lemmas *)

Lemma string_app_assoc (a b c : String.string) : (a ++ b) ++ c = a ++ (b ++ c).
Proof. induction a as [|x a IH]; [reflexivity|exact (f_equal (String x) IH)]. Qed.

Lemma string_app_nil_l (a : String.string) : "" ++ a = a.
Proof. reflexivity. Qed.

Lemma string_app_nil_r (a : String.string) : a ++ "" = a.
Proof. induction a as [|x a IH]; [reflexivity|exact (f_equal (String x) IH)]. Qed.

Lemma cell_at_set l c s : cell_at l (set_cell l c s) = Some c.
Proof. unfold cell_at, set_cell; simpl. by rewrite lookup_insert_eq. Qed.

Lemma set_cell_set l c1 c2 s : set_cell l c2 (set_cell l c1 s) = set_cell l c2 s.
Proof. unfold set_cell; simpl. by rewrite insert_insert_eq. Qed.

Lemma set_cell_same l c s : cell_at l s = Some c -> set_cell l c s = s.
Proof.
  unfold cell_at, set_cell. destruct s as [b h]; simpl.
  destruct (h !! l) as [[c0]|] eqn:Hl; simpl; intros Hc; inversion Hc; subst.
  by rewrite insert_id.
Qed.

Lemma buf_set_cell l c s : buf (set_cell l c s) = buf s.
Proof. reflexivity. Qed.

Lemma cell_at_buf l b s : cell_at l (mkSt b (heap s)) = cell_at l s.
Proof. reflexivity. Qed.

Lemma heap_set_cell_buf l c s b :
  mkSt b (heap (set_cell l c s)) = set_cell l c (mkSt b (heap s)).
Proof. reflexivity. Qed.

Lemma set_cell_write l c s t :
  set_cell l c (mkSt (buf s ++ t) (heap s)) = mkSt (buf s ++ t) (heap (set_cell l c s)).
Proof. reflexivity. Qed.

Section CellLemmas.

Variable fmt_backtrace : RawBacktrace -> String.string.
Variable debug_str : String.string -> String.string.

Ltac run := repeat (
  unfold bt_has_backtrace, bt_resolve, bt_write, with_borrow, borrow, borrow_mut,
    drop_mut, unwind_mut, drop_ref_st, expect, write, panic, mbind, M_bind, mret, M_ret,
    cell_at, set_cell in *; simpl in *; rewrite ?lookup_insert_eq, ?insert_insert_eq in *).

Lemma bt_has_backtrace_unused l b h v :
  idle h l v ->
  bt_has_backtrace l (mkSt b h) = Done (bool_decide (is_Some (string v))) (mkSt b h).
Proof.
  unfold idle; intros H. run. rewrite H. run. by rewrite insert_id.
Qed.

Lemma bt_resolve_unused sym l b h v :
  idle h l v ->
  bt_resolve fmt_backtrace sym l (mkSt b h) =
  let '(bt', panicked) := resolve sym (backtrace v) in
  if panicked
  then Panicked resolve_panic_msg
         (mkSt b (<[l := mkBacktrace (mkRefCell Unused (mkInnerMut bt' (string v)))]> h))
  else Done tt
         (mkSt b (<[l := mkBacktrace (mkRefCell Unused (mkInnerMut bt' (Some (fmt_backtrace bt'))))]> h)).
Proof.
  unfold idle; intros H. run. rewrite H. run.
  destruct (resolve sym (backtrace v)) as [bt' []]; run; reflexivity.
Qed.

Lemma bt_write_unused l b h v :
  idle h l v ->
  bt_write l (mkSt b h) =
  match string v with
  | Some t => Done tt (mkSt (b ++ t) h)
  | None => Panicked expect_msg (mkSt b h)
  end.
Proof.
  unfold idle; intros H. run. rewrite H. run.
  destruct (string v); run; by rewrite insert_id.
Qed.

Lemma refcell_debug_unused l b h v :
  idle h l v ->
  refcell_debug fmt_backtrace debug_str l (mkSt b h) =
  Done tt (mkSt (b ++ "RefCell { value: " ++ debug_inner_mut fmt_backtrace debug_str v ++ " }") h).
Proof.
  unfold idle, refcell_debug; intros H. run. rewrite H. run. by rewrite insert_id.
Qed.

Lemma call_fmt_unused c l b h v :
  idle h l v ->
  call_fmt fmt_backtrace debug_str c l (mkSt b h) =
  let '(v', panicked) := render_update fmt_backtrace (call_sym c) v in
  if panicked then Panicked resolve_panic_msg (mkSt b (<[l := mkBacktrace (mkRefCell Unused v')]> h))
  else Done tt (mkSt (b ++ call_text fmt_backtrace debug_str c v') (<[l := mkBacktrace (mkRefCell Unused v')]> h)).
Proof.
  intros H. assert (Hh := H). unfold idle in Hh.
  destruct c as [sym|sym]; simpl;
    [unfold backtrace_display | unfold backtrace_debug];
    unfold mbind, M_bind at 1; rewrite (bt_has_backtrace_unused _ _ _ _ H);
    unfold render_update; destruct (string v) as [t|] eqn:Hs; simpl.
  - unfold mret, M_ret, mbind, M_bind. rewrite (bt_write_unused _ _ _ _ H), Hs.
    by rewrite insert_id.
  - unfold mbind, M_bind at 1. rewrite (bt_resolve_unused sym _ _ _ _ H).
    destruct (resolve sym (backtrace v)) as [bt' []]; [by rewrite Hs|].
    unfold mbind, M_bind.
    rewrite (bt_write_unused _ _ _ (mkInnerMut bt' (Some (fmt_backtrace bt'))));
      [reflexivity|]. unfold idle. by rewrite lookup_insert_eq.
  - unfold mret, M_ret, mbind, M_bind, write; simpl.
    rewrite (refcell_debug_unused _ _ _ _ H). simpl.
    rewrite insert_id by exact Hh. by rewrite <- !string_app_assoc.
  - unfold mbind, M_bind at 1. rewrite (bt_resolve_unused sym _ _ _ _ H).
    destruct (resolve sym (backtrace v)) as [bt' []]; [by rewrite Hs|].
    unfold mbind, M_bind, write; simpl.
    rewrite (refcell_debug_unused _ _ _ (mkInnerMut bt' (Some (fmt_backtrace bt')))).
    + simpl. by rewrite <- !string_app_assoc.
    + unfold idle. by rewrite lookup_insert_eq.
Qed.

Lemma run_call_unused c l h v :
  idle h l v ->
  run_call fmt_backtrace debug_str c l h =
  let '(v', panicked) := render_update fmt_backtrace (call_sym c) v in
  (if panicked then None else Some (call_text fmt_backtrace debug_str c v'),
   <[l := mkBacktrace (mkRefCell Unused v')]> h).
Proof.
  intros H. unfold run_call. rewrite (call_fmt_unused c l "" h v H).
  destruct (render_update fmt_backtrace (call_sym c) v) as [v' []]; reflexivity.
Qed.

Lemma render_update_cached sym v t :
  string v = Some t -> render_update fmt_backtrace sym v = (v, false).
Proof. unfold render_update. by intros ->. Qed.

Lemma render_update_done sym v v' :
  render_update fmt_backtrace sym v = (v', false) -> exists t, string v' = Some t.
Proof.
  unfold render_update. destruct (string v) as [t|] eqn:Hs.
  - intros [= <-]. by exists t.
  - destruct (resolve sym (backtrace v)) as [bt' []]; intros [= <-].
    by eexists.
Qed.

Lemma render_update_panicked sym v v' :
  render_update fmt_backtrace sym v = (v', true) -> string v' = None.
Proof.
  unfold render_update. destruct (string v); [discriminate|].
  destruct (resolve sym (backtrace v)) as [bt' []]; intros [= <-]; reflexivity.
Qed.

Lemma idle_insert h l v : idle (<[l := mkBacktrace (mkRefCell Unused v)]> h) l v.
Proof. unfold idle. by rewrite lookup_insert_eq. Qed.

Lemma cached_str_insert h l v :
  cached_str l (<[l := mkBacktrace (mkRefCell Unused v)]> h) = string v.
Proof. unfold cached_str. by rewrite lookup_insert_eq. Qed.

(** Once a string is cached, a sequence of calls leaves the heap as it is
    and every [Display] call writes the cached string. *)
Lemma run_calls_cached cs l h v t :
  idle h l v -> string v = Some t ->
  run_calls fmt_backtrace debug_str cs l h =
  (map (fun c => (c, Some (call_text fmt_backtrace debug_str c v), Some t)) cs, h).
Proof.
  intros Hi Ht. induction cs as [|c cs IH]; [reflexivity|]. simpl.
  rewrite (run_call_unused c l h v Hi), (render_update_cached _ _ _ Ht).
  rewrite insert_id by exact Hi. rewrite IH.
  unfold cached_str; unfold idle in Hi; rewrite Hi; simpl; by rewrite Ht.
Qed.

Lemma resolutions_cached t (cs : list Call) f :
  resolutions (Some t) (map (fun c => (c, f c, Some t)) cs) = 0.
Proof. induction cs; simpl; auto. Qed.

Lemma in_cached_steps (cs : list Call) v t c o a :
  string v = Some t ->
  In (c, o, a) (map (fun c => (c, Some (call_text fmt_backtrace debug_str c v), Some t)) cs) ->
  a = Some t /\ (forall sym, c = CallDisplay sym -> o = Some t).
Proof.
  intros Ht Hin. apply in_map_iff in Hin as [c' [Heq _]].
  injection Heq as <- <- <-. split; [reflexivity|].
  intros sym ->. simpl. by rewrite Ht.
Qed.

End CellLemmas.

(** ** C2: the rendering is memoized *)

Lemma resolve_total sym fs :
  (forall a, is_Some (sym a)) -> snd (resolve sym fs) = false.
Proof.
  intros Hs. induction fs as [|fr fs IH]; [reflexivity|]. simpl.
  destruct (symbols fr).
  - destruct (resolve sym fs) as [r p]; exact IH.
  - destruct (Hs (ip fr)) as [ss Hss]. rewrite Hss.
    destruct (resolve sym fs) as [r p]; exact IH.
Qed.

(** The invariant of sequences of calls on one backtrace; see
    [backtrace_render_memoized]. *)
Lemma run_calls_memo fmt_backtrace debug_str (cs : list Call) l h v :
  idle h l v ->
  let '(steps, h') := run_calls fmt_backtrace debug_str cs l h in
  resolutions (string v) steps <= 1 /\
  (forall sym t1 a, In (CallDisplay sym, Some t1, a) steps -> a = Some t1) /\
  (forall sym1 sym2 t1 t2 a1 a2,
     In (CallDisplay sym1, Some t1, a1) steps ->
     In (CallDisplay sym2, Some t2, a2) steps -> t1 = t2) /\
  (forall t, string v = Some t ->
     h' = h /\
     forall c o a, In (c, o, a) steps ->
       a = Some t /\ (forall sym, c = CallDisplay sym -> o = Some t)).
Proof.
  revert h v. induction cs as [|c cs IH]; intros h v Hi.
  { simpl. repeat split; intros; try lia; contradiction. }
  destruct (string v) as [t|] eqn:Hs.
  - rewrite (run_calls_cached fmt_backtrace debug_str (c :: cs) l h v t Hi Hs).
    rewrite resolutions_cached.
    split; [lia|split; [|split]].
    + intros sym t1 a Hin.
      destruct (in_cached_steps fmt_backtrace debug_str _ _ _ _ _ _ Hs Hin) as [Ha Ho].
      specialize (Ho sym eq_refl). congruence.
    + intros sym1 sym2 t1 t2 a1 a2 H1 H2.
      destruct (in_cached_steps fmt_backtrace debug_str _ _ _ _ _ _ Hs H1) as [_ Ho1].
      destruct (in_cached_steps fmt_backtrace debug_str _ _ _ _ _ _ Hs H2) as [_ Ho2].
      specialize (Ho1 _ eq_refl). specialize (Ho2 _ eq_refl). congruence.
    + intros t' [= <-]. split; [reflexivity|].
      intros c' o a Hin. exact (in_cached_steps fmt_backtrace debug_str _ _ _ _ _ _ Hs Hin).
  - simpl. rewrite (run_call_unused fmt_backtrace debug_str c l h v Hi).
    destruct (render_update fmt_backtrace (call_sym c) v) as [v' []] eqn:Hr.
    + (* the resolution panicked: nothing is cached yet *)
      pose proof (render_update_panicked _ _ _ _ Hr) as Hv'.
      specialize (IH _ v' (idle_insert h l v')).
      destruct (run_calls fmt_backtrace debug_str cs l (<[l:=mkBacktrace (mkRefCell Unused v')]> h))
        as [steps h'] eqn:Hrun.
      rewrite cached_str_insert, Hv'. rewrite Hv' in IH.
      destruct IH as (IH1 & IH2 & IH3 & _).
      simpl; split; [lia|split; [|split; [|intros; discriminate]]].
      * intros sym t1 a [Hin|Hin]; [discriminate|eauto].
      * intros sym1 sym2 t1 t2 a1 a2 [H1|H1] [H2|H2]; try discriminate; eauto.
    + (* the resolution completed: the string is cached from now on *)
      destruct (render_update_done _ _ _ _ Hr) as [t Ht].
      rewrite (run_calls_cached fmt_backtrace debug_str cs l _ v' t (idle_insert h l v') Ht).
      rewrite cached_str_insert, Ht. simpl. rewrite resolutions_cached.
      assert (Hc : forall sym, c = CallDisplay sym -> call_text fmt_backtrace debug_str c v' = t)
        by (intros sym ->; simpl; by rewrite Ht).
      split; [lia|split; [|split; [|intros; discriminate]]].
      * intros sym t1 a [Hin|Hin].
        -- injection Hin as -> <- <-. by rewrite (Hc sym eq_refl).
        -- destruct (in_cached_steps fmt_backtrace debug_str _ _ _ _ _ _ Ht Hin) as [Ha Ho].
           specialize (Ho sym eq_refl). congruence.
      * assert (Hall : forall sym t1 a,
                   In (CallDisplay sym, Some t1, a)
                     ((c, Some (call_text fmt_backtrace debug_str c v'), Some t)
                        :: map (fun c => (c, Some (call_text fmt_backtrace debug_str c v'), Some t)) cs)
                   -> t1 = t).
        { intros sym t1 a [Hin|Hin].
          - injection Hin as -> <- <-. exact (Hc sym eq_refl).
          - destruct (in_cached_steps fmt_backtrace debug_str _ _ _ _ _ _ Ht Hin) as [_ Ho].
            specialize (Ho _ eq_refl). congruence. }
        intros sym1 sym2 t1 t2 a1 a2 H1 H2.
        rewrite (Hall _ _ _ H1), (Hall _ _ _ H2). reflexivity.
Qed.

(** ** C10: the [expect] in [Display for Backtrace] cannot fire *)

Ltac run_all := repeat (
  unfold backtrace_display, bt_has_backtrace, bt_resolve, bt_write, with_borrow, borrow,
    borrow_mut, drop_mut, unwind_mut, drop_ref_st, expect, write, panic, mbind, M_bind,
    mret, M_ret, cell_at, set_cell in *; simpl in *;
  rewrite ?lookup_insert_eq, ?insert_insert_eq in *).

(** C10. From any state of the heap and of the cell's borrow flag, a
    [Display] of the backtrace never panics with the [expect] message
    "Failed to access captured backtrace?!": after the conditional
    resolution the cached string is always present. *)
Theorem backtrace_display_expect_unreachable fmt_backtrace sym l s :
  match backtrace_display fmt_backtrace sym l s with
  | Panicked msg _ => msg <> expect_msg
  | Done _ _ => True
  end.
Proof.
  destruct s as [b h]. run_all.
  repeat (case_match; simplify_eq/=; run_all); try done.
  all: unfold expect_msg, resolve_panic_msg.
  all: try discriminate.
  (* the remaining cases read the string the check found present *)
  all: intros _; exfalso.
  all: repeat match goal with H : Some _ = Some _ |- _ => injection H as <- end.
  all: simpl in *.
  all: repeat match goal with H : string _ = None |- _ => rewrite H in * end.
  all: match goal with H : negb (bool_decide _) = false |- _ => revert H end.
  all: case_bool_decide as Hb; [by destruct Hb|discriminate].
Qed.

(** ** C5: the [RUST_BACKTRACE] toggle and the [force_backtrace] feature *)

(** C5. Without [force_backtrace], [capture] returns a fresh backtrace of
    the whole current stack exactly when [RUST_BACKTRACE] is ["1"], ["true"]
    or ["full"], and no backtrace when the variable is unset (or not
    unicode) or holds any other value; with [force_backtrace] it always
    captures, whatever the variable holds. *)
Theorem capture_toggle (dd : bool) (v : option String.string) (stk : list Z) :
  capture (mkFeatures true dd) (mkEnv v stk) = Some (fresh_backtrace (mkEnv v stk)) /\
  capture (mkFeatures false dd) (mkEnv None stk) = None /\
  (capture (mkFeatures false dd) (mkEnv v stk) = Some (fresh_backtrace (mkEnv v stk)) <->
   v = Some "1" \/ v = Some "true" \/ v = Some "full") /\
  (capture (mkFeatures false dd) (mkEnv v stk) = None <->
   ~ (v = Some "1" \/ v = Some "true" \/ v = Some "full")).
Proof.
  assert (Hen : forall w, enabling w = true <->
                (Some w = Some "1" \/ Some w = Some "true" \/ Some w = Some "full")).
  { intros w. unfold enabling. rewrite !orb_true_iff, !String.eqb_eq.
    split; [intros [[H|H]|H] | intros [H|[H|H]]]; simplify_eq; auto. }
  split; [reflexivity|]. split; [reflexivity|].
  unfold capture, rust_backtrace_var; simpl.
  destruct v as [w|].
  - rewrite <- (Hen w). destruct (enabling w); split; split; done.
  - split; split; intros H; try done; try discriminate H;
      try (destruct H as [Hc|[Hc|Hc]]; discriminate).
    intros [Hc|[Hc|Hc]]; discriminate.
Qed.

(** ** C6: capturing resolves nothing *)

(** C6. A backtrace returned by [capture] holds no cached string and no
    resolved symbol: each of its frames is an unresolved instruction
    pointer of the current stack, and its cell is not borrowed. *)
Theorem capture_unresolved feats env b :
  capture feats env = Some b ->
  borrow_flag (inner b) = Unused /\
  string (cell_value (inner b)) = None /\
  Forall (fun fr => symbols fr = None) (backtrace (cell_value (inner b))) /\
  map ip (backtrace (cell_value (inner b))) = stack env.
Proof.
  assert (Hf : forall b', Some (fresh_backtrace env) = Some b' ->
    borrow_flag (inner b') = Unused /\ string (cell_value (inner b')) = None /\
    Forall (fun fr => symbols fr = None) (backtrace (cell_value (inner b'))) /\
    map ip (backtrace (cell_value (inner b'))) = stack env).
  { intros b' [= <-]. simpl. split; [done|]. split; [done|]. unfold new_unresolved.
    split.
    - induction (stack env); simpl; constructor; auto.
    - rewrite map_map. simpl. apply map_id. }
  unfold capture. destruct (force_backtrace feats); [apply Hf|].
  destruct (enabling (rust_backtrace_var env)); [apply Hf|discriminate].
Qed.

Lemma capture_unresolved_witness :
  capture (mkFeatures false true) (mkEnv (Some "full") [4096%Z; 8192%Z])
    = Some (fresh_backtrace (mkEnv (Some "full") [4096%Z; 8192%Z])) /\
  string (cell_value (inner (fresh_backtrace (mkEnv (Some "full") [4096%Z; 8192%Z])))) = None.
Proof.
  split; [reflexivity|].
  apply (capture_unresolved (mkFeatures false true) (mkEnv (Some "full") [4096%Z; 8192%Z])).
  reflexivity.
Defined.

(** ** C8 and C9: [new] and [From::from] *)

Section Constructors.

Context {E : Type}.

(** C8. [new(v)] never panics, keeps the payload as it is and attaches the
    empty description. *)
Theorem new_payload_no_desc feats env (v : E) s :
  match new feats env v s with
  | Done x _ => err x = v /\ desc x = ""
  | Panicked _ _ => False
  end.
Proof.
  unfold new, map_arc_new, mbind, M_bind, mret, M_ret.
  destruct (capture feats env); simpl; auto.
Qed.

(** C9. [From::from] on a payload is [new] on it: same error value, same
    capture, same heap afterwards. *)
Theorem from_is_new feats env (v : E) s :
  from feats env v s = new feats env v s.
Proof. reflexivity. Qed.

End Constructors.

(** ** The rendering of the error *)

Section ErrorDisplay.

Context {E : Type}.
Variable feats : Features.
Variable display_E debug_E : E -> String.string.
Variable fmt_backtrace : RawBacktrace -> String.string.

Lemma error_display_spec sym (x : Error E) b h :
  error_display feats display_E debug_E fmt_backtrace sym x (mkSt b h) =
  match error_backtrace x with
  | None => Done tt (mkSt (b ++ payload_text feats display_E debug_E (err x) ++ desc_suffix (desc x)) h)
  | Some l =>
      backtrace_display fmt_backtrace sym l
        (mkSt (b ++ payload_text feats display_E debug_E (err x) ++ desc_suffix (desc x)
                 ++ backtrace_header) h)
  end.
Proof.
  unfold error_display, payload_text, desc_suffix, backtrace_header, writeln, write,
    mbind, M_bind, mret, M_ret; simpl.
  destruct (String.eqb (desc x) "") eqn:Hd; simpl;
    destruct (error_backtrace x); simpl;
    rewrite ?string_app_nil_r, ?string_app_assoc; reflexivity.
Qed.

Lemma backtrace_display_unused sym l b h v :
  idle h l v ->
  backtrace_display fmt_backtrace sym l (mkSt b h) =
  let '(v', panicked) := render_update fmt_backtrace sym v in
  if panicked then Panicked resolve_panic_msg (mkSt b (<[l := mkBacktrace (mkRefCell Unused v')]> h))
  else Done tt (mkSt (b ++ match string v' with Some t => t | None => "" end)
                  (<[l := mkBacktrace (mkRefCell Unused v')]> h)).
Proof. exact (call_fmt_unused fmt_backtrace (fun s => s) (CallDisplay sym) l b h v). Qed.

(** Two errors holding the same [Arc]: once a rendering of one of them
    returns, the other renders the very string it cached, and changes
    nothing. *)
Lemma shared_backtrace_render sym1 sym2 (x y : Error E) l v h :
  error_backtrace x = Some l -> error_backtrace y = Some l -> idle h l v ->
  match to_text feats display_E debug_E fmt_backtrace sym1 y h with
  | Done _ s1 =>
      exists t, cached_str l (heap s1) = Some t /\
        buf s1 = payload_text feats display_E debug_E (err y) ++ desc_suffix (desc y)
                 ++ backtrace_header ++ t /\
        to_text feats display_E debug_E fmt_backtrace sym2 x (heap s1) =
        Done tt (mkSt (payload_text feats display_E debug_E (err x) ++ desc_suffix (desc x)
                       ++ backtrace_header ++ t) (heap s1))
  | Panicked _ _ => True
  end.
Proof.
  intros Hx Hy Hi. unfold to_text.
  rewrite (error_display_spec sym1 y), Hy, (backtrace_display_unused sym1 l _ h v Hi).
  destruct (render_update fmt_backtrace sym1 v) as [v' []] eqn:Hr; [exact I|].
  destruct (render_update_done _ _ _ _ Hr) as [t Ht].
  exists t. simpl. rewrite cached_str_insert, Ht. split; [reflexivity|]. split.
  { by rewrite !string_app_assoc. }
  rewrite (error_display_spec sym2 x), Hx.
  rewrite (backtrace_display_unused sym2 l _ _ v' (idle_insert h l v')).
  rewrite (render_update_cached _ _ _ _ Ht), Ht, insert_insert_eq.
  by rewrite !string_app_assoc.
Qed.

End ErrorDisplay.

(** ** C1: the layout of the error's rendering *)

(** C1. The rendering of a wrapped error is the payload's text (its [Debug]
    form under [derive_display], its [Display] form otherwise), then the
    suffix [" (<desc>)"], which is empty exactly when the description is
    empty; then, when the error holds a backtrace, a line break, an empty
    line, the line "Backtrace:" and the backtrace's rendered text, which is
    the string the backtrace caches from then on. The only way the rendering
    does not return is a panic of the symbolizer during the resolution. *)
Theorem error_display_layout {E} feats (display_E debug_E : E -> String.string)
    fmt_backtrace sym (x : Error E) h :
  let head := payload_text feats display_E debug_E (err x) ++ desc_suffix (desc x) in
  (desc_suffix (desc x) = "" <-> desc x = "") /\
  (desc x <> "" -> desc_suffix (desc x) = " (" ++ desc x ++ ")") /\
  match error_backtrace x with
  | None => to_text feats display_E debug_E fmt_backtrace sym x h = Done tt (mkSt head h)
  | Some l =>
      forall v, idle h l v ->
      let '(v', panicked) := render_update fmt_backtrace sym v in
      if panicked
      then to_text feats display_E debug_E fmt_backtrace sym x h =
           Panicked resolve_panic_msg
             (mkSt (head ++ backtrace_header) (<[l := mkBacktrace (mkRefCell Unused v')]> h))
      else exists t, string v' = Some t /\
           to_text feats display_E debug_E fmt_backtrace sym x h =
           Done tt (mkSt (head ++ backtrace_header ++ t)
                      (<[l := mkBacktrace (mkRefCell Unused v')]> h))
  end.
Proof.
  cbv zeta. split; [|split].
  - unfold desc_suffix. destruct (String.eqb (desc x) "") eqn:Hd.
    + apply String.eqb_eq in Hd. tauto.
    + apply String.eqb_neq in Hd. split; [|contradiction]. intros H. discriminate H.
  - intros Hne. unfold desc_suffix. apply String.eqb_neq in Hne. by rewrite Hne.
  - unfold to_text. rewrite error_display_spec.
    destruct (error_backtrace x) as [l|]; [|reflexivity].
    intros v Hi. rewrite (backtrace_display_unused fmt_backtrace sym l _ h v Hi).
    destruct (render_update fmt_backtrace sym v) as [v' []] eqn:Hr.
    + by rewrite !string_app_assoc.
    + destruct (render_update_done _ _ _ _ Hr) as [t Ht]. exists t.
      rewrite Ht. split; [reflexivity|]. by rewrite !string_app_assoc.
Qed.

(** ** C3: the rendering without a backtrace *)

Lemma substring_empty n : substring n "" -> n = "".
Proof.
  intros (pre & post & H). destruct pre; [|discriminate]. destruct n; [done|discriminate].
Qed.

(** C3 (counterexample). With a payload whose [Display] writes nothing and
    no description, an error without backtrace renders as the empty text,
    so no non-empty hint can be part of every such rendering; and with the
    description "Backtrace:" the rendering contains "Backtrace:". *)
Lemma no_trace_hint_counterexample :
  let feats := mkFeatures false false in
  let quiet := fun _ : unit => "" in
  to_text feats quiet quiet (fun _ => "") (fun _ => None) (mkError tt "" None) ∅ = Done tt (mkSt "" ∅) /\
  ~ (exists hint : String.string, hint <> "" /\
       forall (x : Error unit) h, error_backtrace x = None ->
         match to_text feats quiet quiet (fun _ => "") (fun _ => None) x h with
         | Done _ s => substring hint (buf s)
         | Panicked _ _ => False
         end) /\
  match to_text feats quiet quiet (fun _ => "") (fun _ => None) (mkError tt "Backtrace:" None) ∅ with
  | Done _ s => substring "Backtrace:" (buf s)
  | Panicked _ _ => False
  end.
Proof.
  cbv zeta. split; [reflexivity|]. split.
  - intros (hint & Hne & Hall).
    specialize (Hall (mkError tt "" None) ∅ eq_refl). simpl in Hall.
    apply Hne, substring_empty, Hall.
  - simpl. exists " (", ")". reflexivity.
Qed.

(** C3 (amended). An error without backtrace renders as exactly the
    payload's text followed by the description suffix: the code writes no
    hint and no "Backtrace:" header, and the rendering never panics. *)
Theorem no_trace_render {E} feats (display_E debug_E : E -> String.string)
    fmt_backtrace sym (x : Error E) h :
  error_backtrace x = None ->
  to_text feats display_E debug_E fmt_backtrace sym x h =
  Done tt (mkSt (payload_text feats display_E debug_E (err x) ++ desc_suffix (desc x)) h).
Proof. intros Hn. unfold to_text. by rewrite error_display_spec, Hn. Qed.

Lemma no_trace_render_witness :
  error_backtrace (mkError 7%nat "ctx" None) = None /\
  to_text (mkFeatures false true) (fun _ => "seven") (fun _ => "Seven") (fun _ => "")
    (fun _ => None) (mkError 7%nat "ctx" None) ∅ = Done tt (mkSt "Seven (ctx)" ∅).
Proof.
  split; [reflexivity|].
  exact (no_trace_render (mkFeatures false true) (fun _ => "seven") (fun _ => "Seven")
           (fun _ => "") (fun _ => None) (mkError 7%nat "ctx" None) ∅ eq_refl).
Defined.

(** ** C7: clones share the backtrace *)

(** C7. A clone holds the cloned payload, the same description and the same
    [Arc] as the original; whichever of the two is rendered first, once that
    rendering returns the other one renders the same backtrace text, the
    string now cached in the shared cell, and changes nothing. *)
Theorem clone_shares_backtrace {E} feats (display_E debug_E : E -> String.string)
    fmt_backtrace (clone_E : E -> E) (x : Error E) :
  err (clone clone_E x) = clone_E (err x) /\
  desc (clone clone_E x) = desc x /\
  error_backtrace (clone clone_E x) = error_backtrace x /\
  forall l v h sym1 sym2,
    error_backtrace x = Some l -> idle h l v ->
    (match to_text feats display_E debug_E fmt_backtrace sym1 (clone clone_E x) h with
     | Done _ s1 =>
         exists t, cached_str l (heap s1) = Some t /\
           buf s1 = payload_text feats display_E debug_E (clone_E (err x)) ++ desc_suffix (desc x)
                    ++ backtrace_header ++ t /\
           to_text feats display_E debug_E fmt_backtrace sym2 x (heap s1) =
           Done tt (mkSt (payload_text feats display_E debug_E (err x) ++ desc_suffix (desc x)
                          ++ backtrace_header ++ t) (heap s1))
     | Panicked _ _ => True
     end) /\
    (match to_text feats display_E debug_E fmt_backtrace sym1 x h with
     | Done _ s1 =>
         exists t, cached_str l (heap s1) = Some t /\
           buf s1 = payload_text feats display_E debug_E (err x) ++ desc_suffix (desc x)
                    ++ backtrace_header ++ t /\
           to_text feats display_E debug_E fmt_backtrace sym2 (clone clone_E x) (heap s1) =
           Done tt (mkSt (payload_text feats display_E debug_E (clone_E (err x))
                          ++ desc_suffix (desc x) ++ backtrace_header ++ t) (heap s1))
     | Panicked _ _ => True
     end).
Proof.
  split; [reflexivity|]. split; [reflexivity|]. split; [reflexivity|].
  intros l v h sym1 sym2 Hx Hi. split.
  - exact (shared_backtrace_render feats display_E debug_E fmt_backtrace sym1 sym2
             x (clone clone_E x) l v h Hx Hx Hi).
  - exact (shared_backtrace_render feats display_E debug_E fmt_backtrace sym1 sym2
             (clone clone_E x) x l v h Hx Hx Hi).
Qed.

(** C2. Whatever sequence of [Display] and [Debug] calls runs on one
    [Backtrace] (each with any symbolizer, some possibly panicking), at most
    one of them completes a resolution and fills the cached string; every
    [Display] call that returns writes exactly the cached string, so all of
    them return the same text; and once a string is cached the calls change
    nothing at all: the heap after them is the heap before, every call
    writes that string. *)
Theorem backtrace_render_memoized fmt_backtrace debug_str (cs : list Call) l h v :
  idle h l v ->
  let '(steps, h') := run_calls fmt_backtrace debug_str cs l h in
  resolutions (string v) steps <= 1 /\
  (forall sym t1 a, In (CallDisplay sym, Some t1, a) steps -> a = Some t1) /\
  (forall sym1 sym2 t1 t2 a1 a2,
     In (CallDisplay sym1, Some t1, a1) steps ->
     In (CallDisplay sym2, Some t2, a2) steps -> t1 = t2) /\
  (forall t, string v = Some t ->
     h' = h /\
     forall c o a, In (c, o, a) steps ->
       a = Some t /\ (forall sym, c = CallDisplay sym -> o = Some t)).
Proof. exact (run_calls_memo fmt_backtrace debug_str cs l h v). Qed.

Lemma backtrace_render_memoized_witness :
  idle demo_heap 1 (mkInnerMut (new_unresolved [4096%Z; 8192%Z]) None) /\
  let '(steps, h') := run_calls demo_fmt (fun s => s)
                        [CallDisplay demo_sym; CallDebug (fun _ => None); CallDisplay (fun _ => None)]
                        1 demo_heap in
  resolutions (string (mkInnerMut (new_unresolved [4096%Z; 8192%Z]) None)) steps <= 1 /\
  (forall sym t1 a, In (CallDisplay sym, Some t1, a) steps -> a = Some t1) /\
  (forall sym1 sym2 t1 t2 a1 a2,
     In (CallDisplay sym1, Some t1, a1) steps ->
     In (CallDisplay sym2, Some t2, a2) steps -> t1 = t2) /\
  (forall t, string (mkInnerMut (new_unresolved [4096%Z; 8192%Z]) None) = Some t ->
     h' = demo_heap /\
     forall c o a, In (c, o, a) steps ->
       a = Some t /\ (forall sym, c = CallDisplay sym -> o = Some t)).
Proof.
  assert (Hi : idle demo_heap 1 (mkInnerMut (new_unresolved [4096%Z; 8192%Z]) None)) by reflexivity.
  split; [exact Hi|].
  exact (backtrace_render_memoized demo_fmt (fun s => s)
           [CallDisplay demo_sym; CallDebug (fun _ => None); CallDisplay (fun _ => None)]
           1 demo_heap _ Hi).
Defined.

(** Two [Display] calls in a row on the demo backtrace: the second one,
    with a symbolizer that would panic, returns the cached text. *)
Example demo_render_twice :
  fst (run_calls demo_fmt (fun s => s) [CallDisplay demo_sym; CallDisplay (fun _ => None)] 1 demo_heap)
  = [(CallDisplay demo_sym, Some "main, start", Some "main, start");
     (CallDisplay (fun _ => None), Some "main, start", Some "main, start")].
Proof. vm_compute. reflexivity. Qed.

(** ** C4: the cache cannot be shared between threads *)

(** C4 (code bug). The cache is a [RefCell], not a lock, and a [RefCell] is
    not [Sync]: the [Backtrace] is not [Sync], so the [std::sync::Arc] that
    the clones of an error share is neither [Send] nor [Sync], and neither is
    the error type [$name<E>], whatever the payload [E] is. No two owners of
    one backtrace can be on two threads: a program that renders them
    concurrently is rejected by the compiler. *)
Theorem backtrace_arc_not_thread_safe :
  is_sync backtrace_ty = false /\
  is_send (TArc backtrace_ty) = false /\ is_sync (TArc backtrace_ty) = false /\
  (forall payload, is_send (error_ty payload) = false /\ is_sync (error_ty payload) = false).
Proof.
  split; [reflexivity|]. split; [reflexivity|]. split; [reflexivity|].
  intros payload. unfold error_ty. simpl. by rewrite !andb_false_r.
Qed.

(** * Further properties of the code *)

(** ** Renders from an unborrowed cell *)

(** A [Display] or [Debug] of a backtrace whose cell holds no guard panics
    only inside the symbolizer, never with a [RefCell] borrow error or the
    [expect]; either way it leaves the cell with no guard (after a panic
    with nothing cached, after a return with a string cached) and no other
    backtrace of the heap changed. *)
Theorem render_panics_only_in_symbolizer fmt_backtrace debug_str c l b h v :
  idle h l v ->
  match call_fmt fmt_backtrace debug_str c l (mkSt b h) with
  | Done _ s =>
      (exists v', idle (heap s) l v' /\ is_Some (string v')) /\
      forall l', l' <> l -> heap s !! l' = h !! l'
  | Panicked msg s =>
      msg = resolve_panic_msg /\
      (exists v', idle (heap s) l v' /\ string v' = None) /\
      forall l', l' <> l -> heap s !! l' = h !! l'
  end.
Proof.
  intros Hi. rewrite (call_fmt_unused fmt_backtrace debug_str c l b h v Hi).
  destruct (render_update fmt_backtrace (call_sym c) v) as [v' p] eqn:Hr.
  destruct p; simpl.
  - split; [reflexivity|]. split.
    + exists v'. split; [apply idle_insert|exact (render_update_panicked _ _ _ _ Hr)].
    + intros l' Hne. by rewrite lookup_insert_ne.
  - split.
    + exists v'. split; [apply idle_insert|].
      destruct (render_update_done _ _ _ _ Hr) as [t Ht]. by rewrite Ht.
    + intros l' Hne. by rewrite lookup_insert_ne.
Qed.

Lemma render_panics_only_in_symbolizer_witness :
  idle demo_heap 1 (mkInnerMut (new_unresolved [4096%Z; 8192%Z]) None) /\
  match call_fmt demo_fmt (fun s => s) (CallDisplay (fun _ => None)) 1 (mkSt "" demo_heap) with
  | Done _ s =>
      (exists v', idle (heap s) 1 v' /\ is_Some (string v')) /\
      forall l', l' <> 1%positive -> heap s !! l' = demo_heap !! l'
  | Panicked msg s =>
      msg = resolve_panic_msg /\
      (exists v', idle (heap s) 1 v' /\ string v' = None) /\
      forall l', l' <> 1%positive -> heap s !! l' = demo_heap !! l'
  end.
Proof.
  assert (Hi : idle demo_heap 1 (mkInnerMut (new_unresolved [4096%Z; 8192%Z]) None)) by reflexivity.
  split; [exact Hi|].
  exact (render_panics_only_in_symbolizer demo_fmt (fun s => s) (CallDisplay (fun _ => None))
           1 "" demo_heap _ Hi).
Defined.

(** A [Display] whose symbolizer panics part-way unwinds with the [RefMut]
    dropped: the cell is left with no guard, no cached string and the frames
    resolved before the panic. A later [Display] whose symbolizer does not
    panic then completes the resolution and returns the text it caches. *)
Theorem display_recovers_after_symbolizer_panic fmt_backtrace debug_str l h v sym1 :
  idle h l v -> string v = None ->
  match run_call fmt_backtrace debug_str (CallDisplay sym1) l h with
  | (None, h1) =>
      let v1 := mkInnerMut (fst (resolve sym1 (backtrace v))) None in
      idle h1 l v1 /\
      forall sym2, (forall a, is_Some (sym2 a)) ->
        match run_call fmt_backtrace debug_str (CallDisplay sym2) l h1 with
        | (Some t, h2) =>
            t = fmt_backtrace (fst (resolve sym2 (backtrace v1))) /\ cached_str l h2 = Some t
        | (None, _) => False
        end
  | (Some _, _) => True
  end.
Proof.
  intros Hi Hs.
  rewrite (run_call_unused fmt_backtrace debug_str (CallDisplay sym1) l h v Hi). simpl.
  unfold render_update. rewrite Hs.
  destruct (resolve sym1 (backtrace v)) as [bt' []] eqn:Hr; [|exact I]. simpl.
  split; [apply idle_insert|].
  intros sym2 Htot.
  rewrite (run_call_unused fmt_backtrace debug_str (CallDisplay sym2) l _ _ (idle_insert h l _)).
  simpl. unfold render_update. simpl.
  pose proof (resolve_total sym2 bt' Htot) as Hp.
  destruct (resolve sym2 bt') as [bt'' p]. simpl in Hp. subst p. simpl.
  split; [reflexivity|]. apply cached_str_insert.
Qed.

(** The symbolizer finds the first frame of the demo backtrace and panics on
    the second. *)
Lemma display_recovers_after_symbolizer_panic_witness :
  idle demo_heap 1 (mkInnerMut (new_unresolved [4096%Z; 8192%Z]) None) /\
  string (mkInnerMut (new_unresolved [4096%Z; 8192%Z]) None) = None /\
  match run_call demo_fmt (fun s => s)
          (CallDisplay (fun a => if Z.eqb a 4096 then Some ["main"] else None)) 1 demo_heap with
  | (None, h1) =>
      let v1 := mkInnerMut (fst (resolve (fun a => if Z.eqb a 4096 then Some ["main"] else None)
                                   (backtrace (mkInnerMut (new_unresolved [4096%Z; 8192%Z]) None)))) None in
      idle h1 1 v1 /\
      forall sym2, (forall a, is_Some (sym2 a)) ->
        match run_call demo_fmt (fun s => s) (CallDisplay sym2) 1 h1 with
        | (Some t, h2) =>
            t = demo_fmt (fst (resolve sym2 (backtrace v1))) /\ cached_str 1 h2 = Some t
        | (None, _) => False
        end
  | (Some _, _) => True
  end.
Proof.
  assert (Hi : idle demo_heap 1 (mkInnerMut (new_unresolved [4096%Z; 8192%Z]) None)) by reflexivity.
  split; [exact Hi|]. split; [reflexivity|].
  exact (display_recovers_after_symbolizer_panic demo_fmt (fun s => s) 1 demo_heap _
           (fun a => if Z.eqb a 4096 then Some ["main"] else None) Hi eq_refl).
Defined.

(** ** Cache coherence and [Debug for Backtrace] *)

Lemma coherent_render_update fmt_backtrace sym v :
  coherent fmt_backtrace v -> coherent fmt_backtrace (fst (render_update fmt_backtrace sym v)).
Proof.
  unfold render_update. intros Hc. destruct (string v) eqn:Hs; [exact Hc|].
  destruct (resolve sym (backtrace v)) as [bt' []]; simpl; intros t Ht; [discriminate|].
  by injection Ht as <-.
Qed.

(** A freshly captured backtrace is coherent, and every [Display] or [Debug]
    call keeps its cell coherent: the cached string is always the rendering
    of the stored frames. Hence a [Debug] that returns prints the resolved
    frames twice, as the frames and as the cached string, and the two
    renderings are the same text. *)
Theorem render_keeps_cache_coherent fmt_backtrace debug_str c l h v :
  idle h l v -> coherent fmt_backtrace v ->
  (forall env, coherent fmt_backtrace (cell_value (inner (fresh_backtrace env)))) /\
  let '(o, h') := run_call fmt_backtrace debug_str c l h in
  (exists v', idle h' l v' /\ coherent fmt_backtrace v') /\
  (forall sym t, c = CallDebug sym -> o = Some t ->
     exists fs, t = backtrace_debug_text debug_str (fmt_backtrace fs) /\
                cached_str l h' = Some (fmt_backtrace fs)).
Proof.
  intros Hi Hc. split; [intros env t Ht; discriminate|].
  rewrite (run_call_unused fmt_backtrace debug_str c l h v Hi).
  pose proof (coherent_render_update fmt_backtrace (call_sym c) v Hc) as Hc'.
  destruct (render_update fmt_backtrace (call_sym c) v) as [v' p] eqn:Hr. simpl in Hc'.
  split; [exists v'; split; [apply idle_insert|exact Hc']|].
  intros sym t -> Ho. destruct p; [discriminate|].
  injection Ho as <-.
  destruct (render_update_done _ _ _ _ Hr) as [t Ht].
  exists (backtrace v'). rewrite cached_str_insert, Ht, <- (Hc' t Ht).
  split; [|reflexivity].
  simpl. unfold debug_inner_mut, debug_option, backtrace_debug_text. rewrite Ht, <- (Hc' t Ht).
  rewrite !string_app_assoc. reflexivity.
Qed.

Lemma render_keeps_cache_coherent_witness :
  idle demo_heap 1 (mkInnerMut (new_unresolved [4096%Z; 8192%Z]) None) /\
  coherent demo_fmt (mkInnerMut (new_unresolved [4096%Z; 8192%Z]) None) /\
  (forall env, coherent demo_fmt (cell_value (inner (fresh_backtrace env)))) /\
  let '(o, h') := run_call demo_fmt (fun s => s) (CallDebug demo_sym) 1 demo_heap in
  (exists v', idle h' 1 v' /\ coherent demo_fmt v') /\
  (forall sym t, CallDebug demo_sym = CallDebug sym -> o = Some t ->
     exists fs, t = backtrace_debug_text (fun s => s) (demo_fmt fs) /\
                cached_str 1 h' = Some (demo_fmt fs)).
Proof.
  assert (Hi : idle demo_heap 1 (mkInnerMut (new_unresolved [4096%Z; 8192%Z]) None)) by reflexivity.
  assert (Hc : coherent demo_fmt (mkInnerMut (new_unresolved [4096%Z; 8192%Z]) None))
    by (intros t Ht; discriminate).
  split; [exact Hi|]. split; [exact Hc|].
  exact (render_keeps_cache_coherent demo_fmt (fun s => s) (CallDebug demo_sym) 1 demo_heap _ Hi Hc).
Defined.

(** ** [Debug] then [Display] of an error *)

(** The flow of the crate's example test ([eprintln!("{:?}", e)], then
    [eprintln!("{}", e)]): a [Debug] of an error holding a backtrace resolves
    it (only a symbolizer panic stops it) and prints
    [type_name { err: .., desc: .., backtrace: Some(Backtrace { .. }) }] with
    the rendered frames; every later [Display] of the error prints, after
    the payload and the description, the same rendering, and changes nothing. *)
Theorem debug_then_display {E} (type_name : String.string) feats
    (display_E debug_E : E -> String.string) fmt_backtrace debug_str sym1 sym2
    (x : Error E) l v b h :
  error_backtrace x = Some l -> idle h l v -> coherent fmt_backtrace v ->
  match error_debug type_name debug_E fmt_backtrace debug_str sym1 x (mkSt b h) with
  | Done _ s1 =>
      exists fs,
        cached_str l (heap s1) = Some (fmt_backtrace fs) /\
        buf s1 = b ++ type_name ++ " { err: " ++ debug_E (err x) ++ ", desc: "
                 ++ debug_str (desc x) ++ ", backtrace: Some("
                 ++ backtrace_debug_text debug_str (fmt_backtrace fs) ++ ") }" /\
        to_text feats display_E debug_E fmt_backtrace sym2 x (heap s1) =
        Done tt (mkSt (payload_text feats display_E debug_E (err x) ++ desc_suffix (desc x)
                       ++ backtrace_header ++ fmt_backtrace fs) (heap s1))
  | Panicked msg _ => msg = resolve_panic_msg
  end.
Proof.
  intros Hx Hi Hc.
  unfold error_debug, write, mbind, M_bind, mret, M_ret. simpl. rewrite Hx. simpl.
  change (backtrace_debug fmt_backtrace debug_str sym1 l)
    with (call_fmt fmt_backtrace debug_str (CallDebug sym1) l).
  rewrite (call_fmt_unused fmt_backtrace debug_str (CallDebug sym1) l _ h v Hi).
  pose proof (coherent_render_update fmt_backtrace sym1 v Hc) as Hc'.
  destruct (render_update fmt_backtrace (call_sym (CallDebug sym1)) v) as [v' p] eqn:Hr.
  simpl in Hc', Hr. rewrite Hr in Hc'. simpl in Hc'.
  destruct p; [reflexivity|]. simpl.
  destruct (render_update_done _ _ _ _ Hr) as [t Ht].
  pose proof (Hc' t Ht) as Htf.
  exists (backtrace v'). rewrite cached_str_insert, Ht, <- Htf. split; [reflexivity|]. split.
  - unfold debug_inner_mut, debug_option, backtrace_debug_text. rewrite Ht, <- Htf.
    rewrite !string_app_assoc. reflexivity.
  - unfold to_text. rewrite error_display_spec, Hx.
    rewrite (backtrace_display_unused fmt_backtrace sym2 l _ _ v' (idle_insert h l v')).
    rewrite (render_update_cached _ _ _ _ Ht), Ht, insert_insert_eq.
    by rewrite !string_app_assoc.
Qed.

Lemma debug_then_display_witness :
  error_backtrace (mkError 7%nat "ctx" (Some 1%positive)) = Some 1%positive /\
  idle demo_heap 1 (mkInnerMut (new_unresolved [4096%Z; 8192%Z]) None) /\
  coherent demo_fmt (mkInnerMut (new_unresolved [4096%Z; 8192%Z]) None) /\
  match error_debug "Error<u8>" (fun _ => "Seven") demo_fmt (fun s => s) demo_sym
          (mkError 7%nat "ctx" (Some 1%positive)) (mkSt "" demo_heap) with
  | Done _ s1 =>
      exists fs,
        cached_str 1 (heap s1) = Some (demo_fmt fs) /\
        buf s1 = "" ++ "Error<u8>" ++ " { err: " ++ "Seven" ++ ", desc: "
                 ++ "ctx" ++ ", backtrace: Some("
                 ++ backtrace_debug_text (fun s => s) (demo_fmt fs) ++ ") }" /\
        to_text (mkFeatures false true) (fun _ => "seven") (fun _ => "Seven") demo_fmt
          (fun _ => None) (mkError 7%nat "ctx" (Some 1%positive)) (heap s1) =
        Done tt (mkSt ("Seven" ++ desc_suffix "ctx" ++ backtrace_header ++ demo_fmt fs) (heap s1))
  | Panicked msg _ => msg = resolve_panic_msg
  end.
Proof.
  assert (Hi : idle demo_heap 1 (mkInnerMut (new_unresolved [4096%Z; 8192%Z]) None)) by reflexivity.
  assert (Hc : coherent demo_fmt (mkInnerMut (new_unresolved [4096%Z; 8192%Z]) None))
    by (intros t Ht; discriminate).
  split; [reflexivity|]. split; [exact Hi|]. split; [exact Hc|].
  exact (debug_then_display "Error<u8>" (mkFeatures false true) (fun _ => "seven") (fun _ => "Seven")
           demo_fmt (fun s => s) demo_sym (fun _ => None) (mkError 7%nat "ctx" (Some 1%positive))
           1 _ "" demo_heap eq_refl Hi Hc).
Defined.
